(** * Video-stream API guards (app/api/video_stream.py)

    A shallow embedding of the permission and consistency guards of the
    video-stream resource and of the resource hooks built from them,
    followed by the properties the specification states about them.

    Python exceptions are modelled by an error monad, ORM tables by lists
    of rows held in a [World] (the database as the request sees it, plus
    the permission oracle of the requesting user), and the Python [set] of
    event ids by a [gset]. *)

From stdpp Require Import base numbers list strings gmap pretty.

#[local] Set Warnings "-clear-no-such-hyp".

Local Open Scope string_scope.
Local Open Scope Z_scope.

(** ** Exceptions and the error monad *)

Inductive exn : Type :=
  | ForbiddenError (pointer detail : string)
  | ConflictError (pointer detail : string)
  | UnprocessableEntityError (pointer detail : string)
  | ObjectNotFound (parameter detail : string)
  | KeyError (detail : string).

Inductive result (A : Type) : Type :=
  | Ok (a : A)
  | Raise (e : exn).
Arguments Ok {A} a.
Arguments Raise {A} e.

#[global] Instance result_ret : MRet result := λ A a, Ok a.
#[global] Instance result_bind : MBind result := λ A B k m,
  match m with
  | Ok a => k a
  | Raise e => Raise e
  end.

(** [raises_forbidden r]: the call ended in a [ForbiddenError]. *)
Definition raises_forbidden {A} (r : result A) : Prop :=
  match r with
  | Raise (ForbiddenError _ _) => True
  | _ => False
  end.

Definition raises_conflict {A} (r : result A) : Prop :=
  match r with
  | Raise (ConflictError _ _) => True
  | _ => False
  end.

Definition returns {A} (r : result A) : Prop :=
  match r with
  | Ok _ => True
  | Raise _ => False
  end.

(** ** Python truthiness of the values the hooks test *)

Definition truthy (v : option Z) : bool :=
  match v with
  | Some n => negb (n =? 0)
  | None => false
  end.

Definition truthy_list {A} (v : option (list A)) : bool :=
  match v with
  | Some (_ :: _) => true
  | _ => false
  end.

Definition truthy_str (v : option string) : bool :=
  match v with
  | Some s => negb (String.eqb s "")
  | None => false
  end.

(** ** Data model *)

Module VideoStream.
(** [user_can_access] is the model's computed flag for the requesting
    user. *)
Record t : Type := {
  id : Z;
  event_id : option Z;
  user_can_access : bool;
}.
#[global] Instance video_stream_eq_dec : EqDecision t.
Proof. solve_decision. Defined.
End VideoStream.

Module Microlocation.
Record t : Type := {
  id : Z;
  event_id : option Z;
  video_stream_id : option Z;
}.
#[global] Instance microlocation_eq_dec : EqDecision t.
Proof. solve_decision. Defined.
End Microlocation.

Module Event.
Record t : Type := {
  id : Z;
  identifier : string;
}.
#[global] Instance event_eq_dec : EqDecision t.
Proof. solve_decision. Defined.
End Event.

(** The tables a request reads, and [has_access] of the permission
    manager evaluated for the requesting user. *)
Record World : Type := {
  microlocations : list Microlocation.t;
  video_streams : list VideoStream.t;
  events : list Event.t;
  has_access : string → Z → bool;
}.

(** The [rooms] and [video_stream] relationships of the ORM. *)
Definition rooms_of (w : World) (obj : VideoStream.t) : list Microlocation.t :=
  filter (λ room, Microlocation.video_stream_id room = Some (VideoStream.id obj))
         (microlocations w).

Definition video_stream_of (w : World) (room : Microlocation.t) : option VideoStream.t :=
  sid ← Microlocation.video_stream_id room;
  find (λ s, VideoStream.id s =? sid) (video_streams w).

(** ** The two guards *)

Definition check_event_access (w : World) (event_id : option Z) : result unit :=
  if negb (truthy event_id) then Ok tt
  else
    match event_id with
    | Some e =>
        if negb (has_access w "is_coorganizer" e) then
          Raise (ForbiddenError "/data/relationships/rooms"
                   "You don't have access to the provided event")
        else Ok tt
    | None => Ok tt
    end.

(** The [for] loop of [check_same_event]: the set grows by one room's
    event id per iteration and the loop raises as soon as it holds two. *)
Fixpoint collect_event_ids (rooms : list Microlocation.t)
    (event_ids : gset (option Z)) : result (gset (option Z)) :=
  match rooms with
  | [] => Ok event_ids
  | room :: rest =>
      let event_ids := {[Microlocation.event_id room]} ∪ event_ids in
      if decide (1 < size event_ids)%nat then
        Raise (ForbiddenError "/data/relationships/rooms"
                 "Video Stream can only be created/edited with rooms of a single event")
      else collect_event_ids rest event_ids
  end.

(** [set.pop()]: an arbitrary element, [KeyError] on the empty set.  It is
    only reached with at most one element, where the choice is forced. *)
Definition set_pop (s : gset (option Z)) : result (option Z) :=
  match elements s with
  | [] => Raise (KeyError "pop from an empty set")
  | x :: _ => Ok x
  end.

Definition check_same_event (w : World) (room_ids : list Z) : result unit :=
  let rooms := filter (λ room, Microlocation.id room ∈ room_ids) (microlocations w) in
  event_ids ← collect_event_ids rooms ∅;
  e ← set_pop event_ids;
  check_event_access w e.

(** ** Request payloads and view arguments *)

Module Data.
(** The deserialised payload: [None] is a key that is not there. *)
Record t : Type := {
  rooms : option (list Z);
  event : option Z;
}.
End Data.

Module ViewKwargs.
Record t : Type := {
  room_id : option Z;
  event_identifier : option string;
  event_id : option Z;
  id : option Z;
}.

Definition set_id (v : option Z) (kw : t) : t :=
  {| room_id := room_id kw; event_identifier := event_identifier kw;
     event_id := event_id kw; id := v |}.

Definition set_event_id (v : option Z) (kw : t) : t :=
  {| room_id := room_id kw; event_identifier := event_identifier kw;
     event_id := v; id := id kw |}.
End ViewKwargs.

(** Modelled from the spec: [safe_query_kwargs] of [app.api.helpers.db] is
    not among the sources.  The spec describes it as find-or-not-found: the
    row of the table whose column equals the view argument, and the Not
    Found error naming that argument when there is no such row. *)
Definition safe_query_kwargs {A} (table : list A) (matches : A → bool)
    (parameter_name : string) : result A :=
  match find matches table with
  | Some row => Ok row
  | None => Raise (ObjectNotFound parameter_name "not found")
  end.

(** Modelled from the spec: [require_exclusive_relationship] of
    [app.api.helpers.utilities] is not among the sources.  Exactly one of
    the listed relationships must be specified; with [optional], none is
    accepted as well.  The hooks below take the helper as a parameter; this
    definition is the instance used on concrete requests. *)
Definition specified (data : Data.t) (resource : string) : bool :=
  if String.eqb resource "rooms" then bool_decide (is_Some (Data.rooms data))
  else if String.eqb resource "event" then bool_decide (is_Some (Data.event data))
  else false.

Definition require_exclusive_relationship_spec (resources : list string)
    (data : Data.t) (optional : bool) : result unit :=
  match length (List.filter (specified data) resources) with
  | 1%nat => Ok tt
  | 0%nat =>
      if optional then Ok tt
      else Raise (UnprocessableEntityError "/data/relationships"
                    "A valid relationship with either of resources is required")
  | _ => Raise (UnprocessableEntityError "/data/relationships"
                  "A valid relationship with either of resources is required")
  end.

(** ** The resource hooks *)

(** [VideoStream.query.filter_by(event_id=e).exists()] *)
Definition video_exists (w : World) (e : Z) : bool :=
  existsb (λ s, bool_decide (VideoStream.event_id s = Some e)) (video_streams w).

Section hooks.
Variable require_exclusive_relationship :
  list string → Data.t → bool → result unit.

(** [VideoStreamList.before_post] *)
Definition before_post (w : World) (data : Data.t) : result unit :=
  require_exclusive_relationship ["rooms"; "event"] data false;;
  (if truthy_list (Data.rooms data)
   then check_same_event w (default [] (Data.rooms data))
   else Ok tt);;
  check_event_access w (Data.event data);;
  if truthy (Data.event data) then
    match Data.event data with
    | Some e =>
        if video_exists w e then
          Raise (ConflictError "/data/relationships/event"
                   "Video Stream for this event already exists")
        else Ok tt
    | None => Ok tt
    end
  else Ok tt.

(** [VideoStreamDetail.before_update_object] *)
Definition before_update_object (w : World) (obj : VideoStream.t)
    (data : Data.t) : result unit :=
  require_exclusive_relationship ["rooms"; "event"] data true;;
  check_event_access w (VideoStream.event_id obj);;
  check_event_access w (Data.event data);;
  let rooms := default [] (Data.rooms data) in
  let room_ids := (rooms ++ (Microlocation.id <$> rooms_of w obj))%list in
  match room_ids with
  | [] => Ok tt
  | _ :: _ => check_same_event w room_ids
  end.
End hooks.

(** [VideoStreamDetail.before_delete_object] *)
Definition before_delete_object (w : World) (obj : VideoStream.t) : result unit :=
  check_event_access w (VideoStream.event_id obj);;
  let room_ids := Microlocation.id <$> rooms_of w obj in
  match room_ids with
  | [] => Ok tt
  | _ :: _ => check_same_event w room_ids
  end.

(** [VideoStreamDetail.before_get_object]: the hook rewrites [view_kwargs]
    in place, so the embedding returns the rewritten arguments. *)
Definition before_get_object (w : World) (view_kwargs : ViewKwargs.t)
    : result ViewKwargs.t :=
  view_kwargs ←
    (if truthy (ViewKwargs.room_id view_kwargs) then
       room ← safe_query_kwargs (microlocations w)
                (λ r, bool_decide (Some (Microlocation.id r) = ViewKwargs.room_id view_kwargs))
                "room_id";
       Ok (ViewKwargs.set_id (VideoStream.id <$> video_stream_of w room) view_kwargs)
     else Ok view_kwargs);
  view_kwargs ←
    (if truthy_str (ViewKwargs.event_identifier view_kwargs) then
       event ← safe_query_kwargs (events w)
                 (λ e, bool_decide (Some (Event.identifier e) = ViewKwargs.event_identifier view_kwargs))
                 "event_identifier";
       Ok (ViewKwargs.set_event_id (Some (Event.id event)) view_kwargs)
     else Ok view_kwargs);
  if truthy (ViewKwargs.event_id view_kwargs) then
    video_stream ← safe_query_kwargs (video_streams w)
                     (λ s, bool_decide (VideoStream.event_id s = ViewKwargs.event_id view_kwargs))
                     "event_id";
    Ok (ViewKwargs.set_id (Some (VideoStream.id video_stream)) view_kwargs)
  else Ok view_kwargs.

(** [VideoStreamDetail.after_get_object] *)
Definition after_get_object (stream : option VideoStream.t) : result unit :=
  match stream with
  | Some s =>
      if negb (VideoStream.user_can_access s) then
        Raise (ObjectNotFound "id"
                 ("Video Stream: " +:+ pretty (VideoStream.id s) +:+ " not found"))
      else Ok tt
  | None => Ok tt
  end.


(** ** Auxiliary definitions for the statements *)

(** The world with its rooms table replaced, as when the database hands
    the same rows back in another order. *)
Definition with_microlocations (rows : list Microlocation.t) (w : World) : World :=
  {| microlocations := rows; video_streams := video_streams w;
     events := events w; has_access := has_access w |}.


Definition rooms_error : exn :=
  ForbiddenError "/data/relationships/rooms"
    "Video Stream can only be created/edited with rooms of a single event".

(** The rooms a call looks at, and the set of their event ids. *)
Definition found_rooms (w : World) (room_ids : list Z) : list Microlocation.t :=
  filter (λ room, Microlocation.id room ∈ room_ids) (microlocations w).

Definition found_event_ids (w : World) (room_ids : list Z) : gset (option Z) :=
  list_to_set (Microlocation.event_id <$> found_rooms w room_ids).

(** The uniqueness check that ends [before_post]. *)
Definition event_conflict (w : World) (event : option Z) : result unit :=
  if truthy event then
    match event with
    | Some e =>
        if video_exists w e then
          Raise (ConflictError "/data/relationships/event"
                   "Video Stream for this event already exists")
        else Ok tt
    | None => Ok tt
    end
  else Ok tt.

(** The access requirement as a statement about the requester: for an
    event id that is given and is not 0, the requester holds
    [is_coorganizer] on that event.  Nothing is required for an absent id
    or for the id 0. *)
Definition coorganizer_required (w : World) (event_id : option Z) : Prop :=
  ∀ E, event_id = Some E → E ≠ 0 → has_access w "is_coorganizer" E = true.

(** The access guard written from that requirement, without the code's
    truthiness test: it raises the access ForbiddenError exactly when the
    id is given, is not 0, and the capability is missing. *)
Definition coorganizer_guard (w : World) (event_id : option Z) : result unit :=
  match event_id with
  | Some E =>
      if bool_decide (E = 0) then Ok tt
      else if has_access w "is_coorganizer" E then Ok tt
      else Raise (ForbiddenError "/data/relationships/rooms"
                    "You don't have access to the provided event")
  | None => Ok tt
  end.

(** The update hook in the words of the amended claim: coorganizer access
    is required on the current and on the proposed event id, and the
    rooms guard runs over the union, as a set, of the proposed and the
    existing room ids unless that union is empty. *)
Definition before_update_object_spec
    (require_exclusive_relationship : list string → Data.t → bool → result unit)
    (w : World) (obj : VideoStream.t) (data : Data.t) : result unit :=
  require_exclusive_relationship ["rooms"; "event"] data true;;
  coorganizer_guard w (VideoStream.event_id obj);;
  coorganizer_guard w (Data.event data);;
  let union : gset Z :=
    list_to_set (default [] (Data.rooms data))
    ∪ list_to_set (Microlocation.id <$> rooms_of w obj) in
  if decide (union = ∅) then Ok tt else check_same_event w (elements union).

(** ** Concrete worlds *)

Definition room (i : Z) (e : option Z) (s : option Z) : Microlocation.t :=
  {| Microlocation.id := i; Microlocation.event_id := e;
     Microlocation.video_stream_id := s |}.

Definition stream (i : Z) (e : option Z) (visible : bool) : VideoStream.t :=
  {| VideoStream.id := i; VideoStream.event_id := e;
     VideoStream.user_can_access := visible |}.

(** Only [is_coorganizer] on the events of [granted] is held. *)
Definition coorganizer_of (granted : list Z) : string → Z → bool :=
  λ name e, String.eqb name "is_coorganizer" && bool_decide (e ∈ granted).

(** Rooms 101 and 102 of event 5, room 201 of event 7, a stream of event
    5, and a requester who is coorganizer of both events. *)
Definition w_two_events : World :=
  {| microlocations := [room 101 (Some 5) None; room 102 (Some 5) None;
                        room 201 (Some 7) None];
     video_streams := [stream 1 (Some 5) true];
     events := [];
     has_access := coorganizer_of [5; 7] |}.

(** The same tables seen by a requester who is coorganizer of event 7 only. *)
Definition w_outsider : World :=
  {| microlocations := microlocations w_two_events;
     video_streams := video_streams w_two_events;
     events := [];
     has_access := coorganizer_of [7] |}.

(** A room whose event id is 0, and a requester without any access. *)
Definition w_zero : World :=
  {| microlocations := [room 1 (Some 0) None];
     video_streams := [];
     events := [];
     has_access := coorganizer_of [] |}.

(** Event 9 streams from rooms 31 and 32; the requester coorganizes it. *)
Definition w_event9 : World :=
  {| microlocations := [room 31 (Some 9) (Some 4); room 32 (Some 9) (Some 4);
                        room 33 (Some 8) None];
     video_streams := [stream 4 (Some 9) true; stream 6 (Some 8) false];
     events := [ {| Event.id := 9; Event.identifier := "a1b2c3" |};
                 {| Event.id := 8; Event.identifier := "d4e5f6" |} ];
     has_access := coorganizer_of [9] |}.

(** Room 50 belongs to no event; the requester has no access at all. *)
Definition w_detached : World :=
  {| microlocations := [room 50 None None; room 51 (Some 3) None];
     video_streams := [];
     events := [];
     has_access := coorganizer_of [] |}.

(** ** Properties of the guards *)

Lemma elem_of_found_rooms w room_ids room :
  room ∈ found_rooms w room_ids ↔
  room ∈ microlocations w ∧ Microlocation.id room ∈ room_ids.
Proof. unfold found_rooms. rewrite list_elem_of_filter. tauto. Qed.

Lemma elem_of_found_event_ids w room_ids x :
  x ∈ found_event_ids w room_ids ↔
  ∃ room, room ∈ microlocations w ∧ Microlocation.id room ∈ room_ids ∧
          Microlocation.event_id room = x.
Proof.
  unfold found_event_ids.
  rewrite elem_of_list_to_set, list_elem_of_fmap.
  split.
  - intros (room & -> & Hin). apply elem_of_found_rooms in Hin as [Hin Hid].
    exists room. auto.
  - intros (room & Hin & Hid & <-). exists room. split; [done|].
    by apply elem_of_found_rooms.
Qed.

Lemma two_elements_size (s : gset (option Z)) x y :
  x ∈ s → y ∈ s → x ≠ y → (1 < size s)%nat.
Proof.
  intros Hx Hy Hne.
  assert (Hsub : ({[x]} ∪ {[y]} : gset (option Z)) ⊆ s).
  { intros z [->%elem_of_singleton | ->%elem_of_singleton]%elem_of_union; done. }
  apply subseteq_size in Hsub.
  rewrite size_union in Hsub
    by (intros z ->%elem_of_singleton ?%elem_of_singleton; done).
  rewrite !size_singleton in Hsub. lia.
Qed.

(** The loop either raises, when the ids seen so far together with those
    of the rooms make more than one, or returns all of them. *)
Lemma collect_event_ids_spec (rooms : list Microlocation.t) (acc : gset (option Z)) :
  (size acc ≤ 1)%nat →
  collect_event_ids rooms acc =
    let all := list_to_set (Microlocation.event_id <$> rooms) ∪ acc in
    if decide (1 < size all)%nat then Raise rooms_error else Ok all.
Proof.
  revert acc. induction rooms as [|room rest IH]; intros acc Hacc;
    cbn [collect_event_ids]; cbv zeta.
  - rewrite fmap_nil, list_to_set_nil, (left_id_L ∅ (∪)). case_decide; [lia | done].
  - rewrite fmap_cons, list_to_set_cons.
    set (acc' := {[Microlocation.event_id room]} ∪ acc).
    assert (Hall : {[Microlocation.event_id room]}
                     ∪ list_to_set (Microlocation.event_id <$> rest) ∪ acc
                   = list_to_set (Microlocation.event_id <$> rest) ∪ acc')
      by (unfold acc'; set_solver).
    rewrite Hall.
    destruct (decide (1 < size acc')%nat) as [Hbig | Hsmall].
    + assert (size acc' ≤ size (list_to_set (Microlocation.event_id <$> rest) ∪ acc'))%nat
        by (apply subseteq_size; set_solver).
      case_decide; [done | lia].
    + rewrite IH by lia. done.
Qed.

Lemma check_same_event_unfold w room_ids :
  check_same_event w room_ids =
    if decide (1 < size (found_event_ids w room_ids))%nat then Raise rooms_error
    else e ← set_pop (found_event_ids w room_ids); check_event_access w e.
Proof.
  unfold check_same_event. fold (found_rooms w room_ids).
  rewrite collect_event_ids_spec by (rewrite size_empty; lia).
  cbv zeta. rewrite (right_id_L ∅ (∪)). fold (found_event_ids w room_ids).
  by case_decide.
Qed.

(** The outcome depends on the room ids only through the rooms they find. *)
Lemma check_same_event_ext w ids1 ids2 :
  (∀ room, room ∈ microlocations w →
     Microlocation.id room ∈ ids1 ↔ Microlocation.id room ∈ ids2) →
  check_same_event w ids1 = check_same_event w ids2.
Proof.
  intros Hiff. unfold check_same_event.
  assert (Heq : ∀ l : list Microlocation.t, (∀ room, room ∈ l → room ∈ microlocations w) →
            filter (λ room, Microlocation.id room ∈ ids1) l
            = filter (λ room, Microlocation.id room ∈ ids2) l).
  { induction l as [|room l IH]; intros Hl; [done|].
    rewrite !filter_cons.
    rewrite IH by (intros r Hr; apply Hl; by right).
    destruct (Hiff room (Hl room ltac:(by left))) as [H12 H21].
    repeat case_decide; tauto. }
  by rewrite Heq.
Qed.

Lemma check_event_access_truthy w e :
  e ≠ 0 →
  check_event_access w (Some e) =
    if has_access w "is_coorganizer" e then Ok tt
    else Raise (ForbiddenError "/data/relationships/rooms"
                  "You don't have access to the provided event").
Proof.
  intros He. unfold check_event_access, truthy.
  destruct (Z.eqb_spec e 0); [done|]. simpl.
  by destruct (has_access w "is_coorganizer" e).
Qed.

Lemma check_event_access_granted w e :
  has_access w "is_coorganizer" e = true → check_event_access w (Some e) = Ok tt.
Proof.
  intros Hacc. unfold check_event_access, truthy.
  destruct (e =? 0); simpl; [done|]. by rewrite Hacc.
Qed.

Lemma found_event_ids_single w room_ids x :
  (∃ room, room ∈ microlocations w ∧ Microlocation.id room ∈ room_ids) →
  (∀ room, room ∈ microlocations w → Microlocation.id room ∈ room_ids →
     Microlocation.event_id room = x) →
  found_event_ids w room_ids = {[x]}.
Proof.
  intros (room & Hin & Hid) Hall. apply set_eq. intros y.
  rewrite elem_of_found_event_ids, elem_of_singleton. split.
  - intros (r & Hr & Hrid & <-). auto.
  - intros ->. exists room. auto.
Qed.

Lemma check_same_event_single w room_ids x :
  (∃ room, room ∈ microlocations w ∧ Microlocation.id room ∈ room_ids) →
  (∀ room, room ∈ microlocations w → Microlocation.id room ∈ room_ids →
     Microlocation.event_id room = x) →
  check_same_event w room_ids = check_event_access w x.
Proof.
  intros Hex Hall. rewrite check_same_event_unfold.
  rewrite (found_event_ids_single w room_ids x) by done.
  rewrite size_singleton. case_decide; [lia|].
  unfold set_pop. by rewrite elements_singleton.
Qed.


(** Closed facts about concrete worlds are decided by evaluation. *)
Ltac by_evaluation := apply (bool_decide_unpack _); vm_compute; exact I.

Lemma forall_elem_of_decide {A} (P : A → Prop) `{!∀ x, Decision (P x)} (l : list A) :
  bool_decide (Forall P l) → ∀ x, x ∈ l → P x.
Proof. intros Hall%bool_decide_unpack. by apply Forall_forall. Qed.

Ltac each_by_evaluation := refine (forall_elem_of_decide _ _ _); vm_compute; exact I.

Lemma check_same_event_nil w : check_same_event w [] = Raise (KeyError "pop from an empty set").
Proof.
  rewrite check_same_event_unfold.
  assert (Hempty : found_event_ids w [] = ∅).
  { apply set_eq. intros x. rewrite elem_of_found_event_ids.
    split; [|by intros ?%not_elem_of_empty].
    intros (r & _ & Hin & _). by apply not_elem_of_nil in Hin. }
  rewrite Hempty, size_empty. case_decide; [lia|].
  unfold set_pop. by rewrite elements_empty.
Qed.

(** ** The claims *)

(** C1 (amended): for every collection of room ids whose rooms all belong
    to exactly one event E, [check_same_event] hands E to
    [check_event_access]; when E is not 0 it raises ForbiddenError if and
    only if the requester lacks [is_coorganizer] on E. *)
Theorem check_same_event_one_event w room_ids E :
  (∃ r, r ∈ microlocations w ∧ Microlocation.id r ∈ room_ids) →
  (∀ r, r ∈ microlocations w → Microlocation.id r ∈ room_ids →
     Microlocation.event_id r = Some E) →
  check_same_event w room_ids = check_event_access w (Some E) ∧
  (E ≠ 0 →
   (raises_forbidden (check_same_event w room_ids) ↔
    has_access w "is_coorganizer" E = false)).
Proof.
  intros Hex Hall.
  assert (Heq := check_same_event_single w room_ids (Some E) Hex Hall).
  split; [done|]. intros HE.
  rewrite Heq, check_event_access_truthy by done.
  destruct (has_access w "is_coorganizer" E); simpl; split; (done || tauto).
Qed.

Lemma check_same_event_one_event_witness :
  check_same_event w_outsider [101; 102] = check_event_access w_outsider (Some 5) ∧
  (5 ≠ 0 →
   (raises_forbidden (check_same_event w_outsider [101; 102]) ↔
    has_access w_outsider "is_coorganizer" 5 = false)).
Proof.
  apply (check_same_event_one_event w_outsider [101; 102] 5).
  - exists (room 101 (Some 5) None). split; by_evaluation.
  - each_by_evaluation.
Defined.

(** C1, as stated, fails for an event whose id is 0: the access guard
    takes a zero id for an absent one and returns without asking. *)
Lemma check_same_event_event_zero_unchecked :
  (∃ r, r ∈ microlocations w_zero ∧ Microlocation.id r ∈ [1]) ∧
  (∀ r, r ∈ microlocations w_zero → Microlocation.id r ∈ [1] →
     Microlocation.event_id r = Some 0) ∧
  has_access w_zero "is_coorganizer" 0 = false ∧
  check_same_event w_zero [1] = Ok tt.
Proof.
  split; [|split; [|split]].
  - exists (room 1 (Some 0) None). split; by_evaluation.
  - each_by_evaluation.
  - reflexivity.
  - by vm_compute.
Qed.

(** C2: when the rooms found for the given ids carry more than one
    distinct event id, [check_same_event] raises ForbiddenError with
    pointer /data/relationships/rooms, whatever the requester may access. *)
Theorem check_same_event_mixed_events w room_ids r1 r2 :
  r1 ∈ microlocations w → r2 ∈ microlocations w →
  Microlocation.id r1 ∈ room_ids → Microlocation.id r2 ∈ room_ids →
  Microlocation.event_id r1 ≠ Microlocation.event_id r2 →
  check_same_event w room_ids =
    Raise (ForbiddenError "/data/relationships/rooms"
             "Video Stream can only be created/edited with rooms of a single event").
Proof.
  intros Hr1 Hr2 Hid1 Hid2 Hne. rewrite check_same_event_unfold.
  rewrite decide_True; [done|].
  apply (two_elements_size _ (Microlocation.event_id r1) (Microlocation.event_id r2));
    [| |done]; apply elem_of_found_event_ids; eauto.
Qed.

(** The scenario of the specification: rooms 101 and 102 of event 5 mixed
    with room 201 of event 7, for a coorganizer of both events. *)
Lemma check_same_event_mixed_events_witness :
  check_same_event w_two_events [101; 102; 201] =
    Raise (ForbiddenError "/data/relationships/rooms"
             "Video Stream can only be created/edited with rooms of a single event").
Proof.
  apply (check_same_event_mixed_events w_two_events [101; 102; 201]
           (room 101 (Some 5) None) (room 201 (Some 7) None));
    by_evaluation.
Defined.

(** C3, as stated, fails: on an empty collection the guard pops from an
    empty set and ends in KeyError. *)
Lemma check_same_event_empty_raises :
  check_same_event w_two_events [] = Raise (KeyError "pop from an empty set").
Proof. by vm_compute. Qed.

(** C6: [check_event_access] on an absent event id returns, whatever the
    requester's rights are. *)
Theorem check_event_access_absent w : check_event_access w None = Ok tt.
Proof. reflexivity. Qed.

(** C10: room ids that match no room are ignored; adding them to a
    collection changes neither the outcome nor the access decision. *)
Theorem check_same_event_ignores_unknown_ids w room_ids unknown :
  (∀ x, x ∈ unknown → x ∉ Microlocation.id <$> microlocations w) →
  check_same_event w (room_ids ++ unknown) = check_same_event w room_ids ∧
  check_same_event w (unknown ++ room_ids) = check_same_event w room_ids.
Proof.
  intros Hunknown.
  split; apply check_same_event_ext; intros r Hr; rewrite elem_of_app;
    split; auto; intros [?|?]; auto;
    destruct (Hunknown (Microlocation.id r)); auto; by apply list_elem_of_fmap_2.
Qed.

Lemma check_same_event_ignores_unknown_ids_witness :
  check_same_event w_outsider ([101; 102] ++ [999; 1000]) = check_same_event w_outsider [101; 102] ∧
  check_same_event w_outsider ([999; 1000] ++ [101; 102]) = check_same_event w_outsider [101; 102].
Proof.
  apply (check_same_event_ignores_unknown_ids w_outsider [101; 102] [999; 1000]).
  each_by_evaluation.
Defined.

(** C5: a fetched stream whose [user_can_access] flag is false makes the
    post-fetch check raise ObjectNotFound, the error of a lookup that finds
    nothing, so the hook does not return and the stream is not served. *)
Theorem after_get_object_hidden s :
  VideoStream.user_can_access s = false →
  after_get_object (Some s) =
    Raise (ObjectNotFound "id"
             ("Video Stream: " +:+ pretty (VideoStream.id s) +:+ " not found")) ∧
  ¬ returns (after_get_object (Some s)).
Proof.
  intros Hflag. unfold after_get_object. rewrite Hflag. simpl. auto.
Qed.

Lemma after_get_object_hidden_witness :
  after_get_object (Some (stream 6 (Some 8) false)) =
    Raise (ObjectNotFound "id" "Video Stream: 6 not found") ∧
  ¬ returns (after_get_object (Some (stream 6 (Some 8) false))).
Proof. apply (after_get_object_hidden (stream 6 (Some 8) false)). reflexivity. Defined.

Lemma NoDup_fmap_eq {A B} (f : A → B) (l : list A) x y :
  NoDup (f <$> l) → x ∈ l → y ∈ l → f x = f y → x = y.
Proof.
  induction l as [|a l IH]; intros Hnd Hx Hy Hf.
  - by apply not_elem_of_nil in Hx.
  - rewrite fmap_cons in Hnd. apply NoDup_cons in Hnd as [Hnotin Hnd].
    apply elem_of_cons in Hx as [-> | Hx]; apply elem_of_cons in Hy as [-> | Hy].
    + done.
    + destruct Hnotin. rewrite Hf. by apply list_elem_of_fmap_2.
    + destruct Hnotin. rewrite <- Hf. by apply list_elem_of_fmap_2.
    + by apply IH.
Qed.

Lemma elem_of_rooms_of w obj r :
  r ∈ rooms_of w obj ↔
  r ∈ microlocations w ∧ Microlocation.video_stream_id r = Some (VideoStream.id obj).
Proof. unfold rooms_of. rewrite list_elem_of_filter. tauto. Qed.

(** C9: for a stream of event E whose rooms (if any) all belong to E, a
    coorganizer of E passes both guards of the pre-delete hook. *)
Theorem before_delete_object_coorganizer w obj E :
  VideoStream.event_id obj = Some E →
  (∀ r, r ∈ rooms_of w obj → Microlocation.event_id r = Some E) →
  NoDup (Microlocation.id <$> microlocations w) →
  has_access w "is_coorganizer" E = true →
  before_delete_object w obj = Ok tt.
Proof.
  intros Hev Hrooms Hkey Hacc. unfold before_delete_object.
  rewrite Hev, check_event_access_granted by done. simpl.
  destruct (rooms_of w obj) as [|r0 rest] eqn:Hobj; [done|].
  assert (Hr0 : r0 ∈ rooms_of w obj) by (rewrite Hobj; left).
  change (check_same_event w (Microlocation.id <$> r0 :: rest) = Ok tt).
  rewrite <- Hobj in *.
  rewrite (check_same_event_single w _ (Some E)).
  - by apply check_event_access_granted.
  - exists r0. split; [by apply elem_of_rooms_of in Hr0 as [? _]|].
    by apply list_elem_of_fmap_2.
  - intros r Hr (r' & Hid & Hr')%list_elem_of_fmap.
    assert (r = r') as ->; [|by apply Hrooms].
    apply (NoDup_fmap_eq Microlocation.id (microlocations w)); try done.
    by apply elem_of_rooms_of in Hr' as [? _].
Qed.

(** A coorganizer of event 9 deletes the stream of event 9. *)
Lemma before_delete_object_coorganizer_witness :
  before_delete_object w_event9 (stream 4 (Some 9) true) = Ok tt.
Proof.
  apply (before_delete_object_coorganizer w_event9 (stream 4 (Some 9) true) 9).
  - reflexivity.
  - each_by_evaluation.
  - by_evaluation.
  - reflexivity.
Defined.

(** C3 (amended): every hook skips [check_same_event] when its collection
    of room ids is empty, so an empty collection is a no-op there: the
    outcome is that of the remaining checks alone. *)
Theorem hooks_skip_guard_without_rooms rer w obj data :
  (truthy_list (Data.rooms data) = false →
   before_post rer w data =
     (rer ["rooms"; "event"] data false;;
      check_event_access w (Data.event data);;
      event_conflict w (Data.event data))) ∧
  (default [] (Data.rooms data) = [] → rooms_of w obj = [] →
   before_update_object rer w obj data =
     (rer ["rooms"; "event"] data true;;
      check_event_access w (VideoStream.event_id obj);;
      check_event_access w (Data.event data))) ∧
  (rooms_of w obj = [] →
   before_delete_object w obj = check_event_access w (VideoStream.event_id obj)).
Proof.
  split; [|split].
  - intros Hrooms. unfold before_post, event_conflict. rewrite Hrooms.
    by destruct (rer _ data false).
  - intros Hnew Hold. unfold before_update_object. rewrite Hnew, Hold. simpl.
    destruct (rer _ data true); [|done]. simpl.
    destruct (check_event_access w (VideoStream.event_id obj)); [|done]. simpl.
    by destruct (check_event_access w (Data.event data)) as [[]|].
  - intros Hold. unfold before_delete_object. rewrite Hold. simpl.
    by destruct (check_event_access w (VideoStream.event_id obj)) as [[]|].
Qed.

(** A stream of event 8 without rooms, and payloads without rooms. *)
Lemma hooks_skip_guard_without_rooms_witness :
  before_post require_exclusive_relationship_spec w_event9
    {| Data.rooms := None; Data.event := Some 9 |}
  = Raise (ConflictError "/data/relationships/event"
             "Video Stream for this event already exists") ∧
  before_update_object require_exclusive_relationship_spec w_event9
    (stream 6 (Some 8) false) {| Data.rooms := Some []; Data.event := None |}
  = Raise (ForbiddenError "/data/relationships/rooms"
             "You don't have access to the provided event") ∧
  before_delete_object w_event9 (stream 6 None false) = Ok tt.
Proof.
  pose proof (hooks_skip_guard_without_rooms require_exclusive_relationship_spec
                w_event9 (stream 6 (Some 8) false)
                {| Data.rooms := None; Data.event := Some 9 |}) as (Hpost & _ & _).
  pose proof (hooks_skip_guard_without_rooms require_exclusive_relationship_spec
                w_event9 (stream 6 (Some 8) false)
                {| Data.rooms := Some []; Data.event := None |}) as (_ & Hupdate & _).
  pose proof (hooks_skip_guard_without_rooms require_exclusive_relationship_spec
                w_event9 (stream 6 None false)
                {| Data.rooms := None; Data.event := None |}) as (_ & _ & Hdelete).
  split; [|split].
  - rewrite Hpost; reflexivity.
  - rewrite Hupdate; reflexivity.
  - rewrite Hdelete; reflexivity.
Defined.

Lemma video_exists_iff w e :
  video_exists w e = true ↔
  ∃ s, s ∈ video_streams w ∧ VideoStream.event_id s = Some e.
Proof.
  unfold video_exists. rewrite existsb_exists. split.
  - intros (s & Hin%list_elem_of_In & Hs%bool_decide_eq_true). eauto.
  - intros (s & Hin & Hs). exists s. split; [by apply list_elem_of_In|].
    by apply bool_decide_eq_true.
Qed.

Lemma check_event_access_no_conflict w v : ¬ raises_conflict (check_event_access w v).
Proof.
  unfold check_event_access. destruct (truthy v); simpl; [|tauto].
  destruct v as [e|]; [|tauto]. destruct (has_access w "is_coorganizer" e); simpl; tauto.
Qed.

Lemma check_same_event_no_conflict w room_ids :
  ¬ raises_conflict (check_same_event w room_ids).
Proof.
  rewrite check_same_event_unfold. case_decide; [simpl; tauto|].
  unfold set_pop. destruct (elements _); simpl; [tauto|].
  apply check_event_access_no_conflict.
Qed.

(** C4 (amended): for a create request that passes the exclusivity check
    and names an event with a non-zero id, the pre-create hook raises
    ConflictError with pointer /data/relationships/event when a VideoStream
    of that event exists, the request carries no rooms and the requester is
    coorganizer of the event; when no VideoStream of that event exists it
    raises no ConflictError. *)
Theorem before_post_conflict rer w data e :
  rer ["rooms"; "event"] data false = Ok tt →
  Data.event data = Some e →
  e ≠ 0 →
  ((∃ s, s ∈ video_streams w ∧ VideoStream.event_id s = Some e) →
   truthy_list (Data.rooms data) = false →
   has_access w "is_coorganizer" e = true →
   before_post rer w data =
     Raise (ConflictError "/data/relationships/event"
              "Video Stream for this event already exists")) ∧
  ((¬ ∃ s, s ∈ video_streams w ∧ VideoStream.event_id s = Some e) →
   ¬ raises_conflict (before_post rer w data)).
Proof.
  intros Hrer Hevent He. unfold before_post. rewrite Hrer, Hevent. simpl.
  destruct (Z.eqb_spec e 0) as [|_]; [done|]. simpl. split.
  - intros Hexists%video_exists_iff Hrooms Hacc.
    rewrite Hrooms, Hexists. simpl.
    by rewrite check_event_access_granted.
  - intros Hnone.
    assert (Hfalse : video_exists w e = false).
    { destruct (video_exists w e) eqn:Hv; [|done].
      by apply video_exists_iff in Hv. }
    rewrite Hfalse.
    destruct (truthy_list (Data.rooms data)); simpl.
    + pose proof (check_same_event_no_conflict w (default [] (Data.rooms data))) as Hsame.
      destruct (check_same_event w _) as [[]|err]; simpl; [|done].
      pose proof (check_event_access_no_conflict w (Some e)) as Hcea.
      by destruct (check_event_access w (Some e)) as [[]|err].
    + pose proof (check_event_access_no_conflict w (Some e)) as Hcea.
      by destruct (check_event_access w (Some e)) as [[]|err].
Qed.

(** The scenario of the specification, POST with event 5 when a stream of
    event 5 exists, sent by a coorganizer of event 5; and event 7, which
    has no stream. *)
Lemma before_post_conflict_witness :
  before_post require_exclusive_relationship_spec w_two_events
    {| Data.rooms := None; Data.event := Some 5 |}
  = Raise (ConflictError "/data/relationships/event"
             "Video Stream for this event already exists") ∧
  ¬ raises_conflict
      (before_post require_exclusive_relationship_spec w_two_events
         {| Data.rooms := None; Data.event := Some 7 |}).
Proof.
  split.
  - apply (before_post_conflict require_exclusive_relationship_spec w_two_events
             {| Data.rooms := None; Data.event := Some 5 |} 5);
      [reflexivity | reflexivity | lia | | reflexivity | reflexivity].
    exists (stream 1 (Some 5) true). split; [by_evaluation | reflexivity].
  - apply (before_post_conflict require_exclusive_relationship_spec w_two_events
             {| Data.rooms := None; Data.event := Some 7 |} 7);
      [reflexivity | reflexivity | lia |].
    intros (s & Hin & Hs). revert s Hin Hs. each_by_evaluation.
Defined.

(** C4, as stated, fails: the same POST sent by a requester who is not
    coorganizer of event 5 ends in ForbiddenError, not in ConflictError. *)
Lemma before_post_conflict_needs_access :
  (∃ s, s ∈ video_streams w_outsider ∧ VideoStream.event_id s = Some 5) ∧
  before_post require_exclusive_relationship_spec w_outsider
    {| Data.rooms := None; Data.event := Some 5 |}
  = Raise (ForbiddenError "/data/relationships/rooms"
             "You don't have access to the provided event").
Proof.
  split; [|by vm_compute].
  exists (stream 1 (Some 5) true). split; [by_evaluation | reflexivity].
Qed.

Lemma room_ids_union_empty (proposed existing : list Z) :
  (list_to_set proposed ∪ list_to_set existing : gset Z) = ∅ ↔
  (proposed ++ existing)%list = [].
Proof.
  split.
  - intros Hempty. apply elem_of_nil_inv. intros x Hx.
    apply (not_elem_of_empty (C:=gset Z) x). rewrite <- Hempty.
    apply elem_of_app in Hx as [Hx | Hx]; apply elem_of_union;
      [left | right]; by apply elem_of_list_to_set.
  - intros [-> ->]%app_eq_nil. by rewrite list_to_set_nil, (left_id_L ∅ (∪)).
Qed.

Lemma check_same_event_union w (proposed existing : list Z) :
  check_same_event w (elements (list_to_set proposed ∪ list_to_set existing : gset Z))
  = check_same_event w (proposed ++ existing).
Proof.
  apply check_same_event_ext. intros r _.
  rewrite elem_of_elements, elem_of_union, !elem_of_list_to_set, elem_of_app. tauto.
Qed.

Lemma check_event_access_guard w v : check_event_access w v = coorganizer_guard w v.
Proof.
  unfold check_event_access, coorganizer_guard, truthy. destruct v as [E|]; [|done].
  destruct (Z.eqb_spec E 0) as [HE | HE]; simpl.
  - by rewrite bool_decide_eq_true_2.
  - rewrite bool_decide_eq_false_2 by done.
    by destruct (has_access w "is_coorganizer" E).
Qed.

Lemma coorganizer_guard_returns w v :
  coorganizer_guard w v = Ok tt ↔ coorganizer_required w v.
Proof.
  unfold coorganizer_guard, coorganizer_required. destruct v as [E|].
  - case_bool_decide as HE.
    + split; [|done]. intros _ E' [= <-] HE'. done.
    + destruct (has_access w "is_coorganizer" E) eqn:Hacc.
      * split; [|done]. by intros _ E' [= <-] _.
      * split; [done|]. intros Hreq. specialize (Hreq E eq_refl HE). congruence.
  - split; [|done]. by intros _ E' [=].
Qed.

(** C7 (amended): the pre-update hook requires coorganizer access on the
    object's current event id and on the proposed event id whenever that
    id is given and is not 0, and runs the rooms guard over the union of
    the proposed and the existing room ids, which it skips only when that
    union is empty; it returns exactly when the exclusivity check passes,
    the requester holds both capabilities, and the guard returns. *)
Theorem before_update_object_guards rer w obj data :
  let union : gset Z :=
    list_to_set (default [] (Data.rooms data))
    ∪ list_to_set (Microlocation.id <$> rooms_of w obj) in
  before_update_object rer w obj data = before_update_object_spec rer w obj data ∧
  (before_update_object rer w obj data = Ok tt ↔
   rer ["rooms"; "event"] data true = Ok tt ∧
   (∀ E, VideoStream.event_id obj = Some E → E ≠ 0 →
      has_access w "is_coorganizer" E = true) ∧
   (∀ E, Data.event data = Some E → E ≠ 0 →
      has_access w "is_coorganizer" E = true) ∧
   (union = ∅ ∨ check_same_event w (elements union) = Ok tt)).
Proof.
  intros union.
  assert (Hspec : before_update_object rer w obj data
                  = before_update_object_spec rer w obj data).
  { unfold before_update_object, before_update_object_spec. fold union.
    rewrite !check_event_access_guard.
    destruct (rer _ data true) as [[]|]; [|done]. simpl.
    destruct (coorganizer_guard w (VideoStream.event_id obj)) as [[]|]; [|done]. simpl.
    destruct (coorganizer_guard w (Data.event data)) as [[]|]; [|done]. simpl.
    unfold union. rewrite check_same_event_union.
    destruct (default [] (Data.rooms data) ++ (Microlocation.id <$> rooms_of w obj))%list
      as [|i ids] eqn:Hids.
    - rewrite decide_True; [done|]. by apply room_ids_union_empty.
    - rewrite decide_False; [done|]. rewrite room_ids_union_empty, Hids. done. }
  split; [done|]. rewrite Hspec. unfold before_update_object_spec. fold union.
  pose proof (coorganizer_guard_returns w (VideoStream.event_id obj)) as Hcur.
  pose proof (coorganizer_guard_returns w (Data.event data)) as Hnew.
  unfold coorganizer_required in Hcur, Hnew. rewrite <- Hcur, <- Hnew.
  destruct (rer _ data true) as [[]|]; simpl; [|naive_solver].
  destruct (coorganizer_guard w (VideoStream.event_id obj)) as [[]|]; simpl; [|naive_solver].
  destruct (coorganizer_guard w (Data.event data)) as [[]|]; simpl; [|naive_solver].
  case_decide; naive_solver.
Qed.

(** A coorganizer of event 9 proposes room 31 of event 9 for the stream of
    event 9, which already has rooms 31 and 32. *)
Lemma before_update_object_guards_witness :
  before_update_object require_exclusive_relationship_spec w_event9
    (stream 4 (Some 9) true) {| Data.rooms := Some [31]; Data.event := None |}
  = Ok tt.
Proof.
  pose proof (before_update_object_guards require_exclusive_relationship_spec w_event9
                (stream 4 (Some 9) true)
                {| Data.rooms := Some [31]; Data.event := None |}) as Hguards.
  cbv zeta in Hguards. destruct Hguards as [_ Hiff]. apply Hiff.
  split; [reflexivity|]. split; [|split].
  - intros E [= <-] _. reflexivity.
  - intros E Hnone. discriminate Hnone.
  - right. by vm_compute.
Defined.

(** C7, as stated, fails for an event whose id is 0: the hook returns for
    a stream of event 0 and a proposed event 0 although the requester has
    no access to that event. *)
Lemma before_update_object_event_zero_unchecked :
  has_access w_zero "is_coorganizer" 0 = false ∧
  before_update_object require_exclusive_relationship_spec w_zero
    (stream 2 (Some 0) true) {| Data.rooms := None; Data.event := Some 0 |}
  = Ok tt.
Proof. split; [reflexivity | by vm_compute]. Qed.




(** ** Further properties of the code *)

Lemma found_event_ids_empty w room_ids :
  (∀ x, x ∈ room_ids → x ∉ Microlocation.id <$> microlocations w) →
  found_event_ids w room_ids = ∅.
Proof.
  intros Hnone. apply set_eq. intros x. rewrite elem_of_found_event_ids.
  split; [|by intros ?%not_elem_of_empty].
  intros (r & Hr & Hid & _). destruct (Hnone _ Hid). by apply list_elem_of_fmap_2.
Qed.

Lemma check_event_access_outcomes w v :
  check_event_access w v = Ok tt ∨
  check_event_access w v =
    Raise (ForbiddenError "/data/relationships/rooms"
             "You don't have access to the provided event").
Proof.
  unfold check_event_access. destruct (truthy v); simpl; [|by left].
  destruct v as [e|]; [|by left].
  destruct (has_access w "is_coorganizer" e); simpl; auto.
Qed.

(** X1: room ids none of which matches a room make [check_same_event] end
    in KeyError, however many ids are given. *)
Theorem check_same_event_no_room_found w room_ids :
  (∀ x, x ∈ room_ids → x ∉ Microlocation.id <$> microlocations w) →
  check_same_event w room_ids = Raise (KeyError "pop from an empty set").
Proof.
  intros Hnone. rewrite check_same_event_unfold, found_event_ids_empty by done.
  rewrite size_empty. case_decide; [lia|].
  unfold set_pop. by rewrite elements_empty.
Qed.

Lemma check_same_event_no_room_found_witness :
  check_same_event w_two_events [999; 1000] = Raise (KeyError "pop from an empty set").
Proof.
  apply (check_same_event_no_room_found w_two_events [999; 1000]).
  each_by_evaluation.
Defined.

(** X2: [check_same_event] has three outcomes, fixed by the event ids of
    the rooms it finds: KeyError when it finds none, the single-event
    ForbiddenError when they carry two or more ids, and otherwise whatever
    [check_event_access] says about the only id. *)
Theorem check_same_event_outcomes w room_ids :
  (found_event_ids w room_ids = ∅ ∧
   check_same_event w room_ids = Raise (KeyError "pop from an empty set")) ∨
  ((1 < size (found_event_ids w room_ids))%nat ∧
   check_same_event w room_ids = Raise rooms_error) ∨
  (∃ x, found_event_ids w room_ids = {[x]} ∧
        check_same_event w room_ids = check_event_access w x).
Proof.
  rewrite check_same_event_unfold.
  destruct (decide (1 < size (found_event_ids w room_ids))%nat) as [Hbig | Hsmall].
  { right. left. done. }
  destruct (size (found_event_ids w room_ids)) as [|[|n]] eqn:Hsize; [| |lia].
  - left. apply size_empty_iff in Hsize. apply leibniz_equiv in Hsize.
    rewrite Hsize. unfold set_pop. by rewrite elements_empty.
  - right. right. apply size_1_elem_of in Hsize as [x Hx].
    apply leibniz_equiv in Hx. exists x. rewrite Hx.
    unfold set_pop. by rewrite elements_singleton.
Qed.

(** X3: when the loop of [check_same_event] runs to its end, the set it
    hands to [pop] is the set of the rooms' event ids and holds at most
    one of them, so the element popped does not depend on a choice. *)
Theorem collect_event_ids_at_most_one (rooms : list Microlocation.t)
    (s : gset (option Z)) :
  collect_event_ids rooms ∅ = Ok s →
  s = list_to_set (Microlocation.event_id <$> rooms) ∧ (size s ≤ 1)%nat ∧
  (∀ x y, set_pop s = Ok x → y ∈ s → y = x).
Proof.
  rewrite collect_event_ids_spec by (rewrite size_empty; lia). cbv zeta.
  rewrite (right_id_L ∅ (∪)). case_decide as Hsize; [done|].
  intros [= <-]. split; [done|]. split; [lia|].
  intros x y Hpop Hy. unfold set_pop in Hpop.
  destruct (elements _) as [|z zs] eqn:Hel; [done|]. injection Hpop as ->.
  assert (Hx : x ∈ (list_to_set (Microlocation.event_id <$> rooms) : gset (option Z)))
    by (apply elem_of_elements; rewrite Hel; left).
  destruct (decide (y = x)) as [|Hne]; [done|].
  pose proof (two_elements_size _ y x Hy Hx Hne). lia.
Qed.

Lemma collect_event_ids_at_most_one_witness :
  ({[Some 5]} : gset (option Z))
  = list_to_set (Microlocation.event_id <$> [room 101 (Some 5) None; room 102 (Some 5) None]) ∧
  (size ({[Some 5%Z]} : gset (option Z)) ≤ 1)%nat ∧
  (∀ x y, set_pop {[Some 5]} = Ok x → y ∈ ({[Some 5]} : gset (option Z)) → y = x).
Proof.
  apply (collect_event_ids_at_most_one
           [room 101 (Some 5) None; room 102 (Some 5) None] {[Some 5]}).
  by vm_compute.
Defined.

Lemma check_event_access_with_microlocations rows w v :
  check_event_access (with_microlocations rows w) v = check_event_access w v.
Proof. reflexivity. Qed.

(** X4: the outcome of [check_same_event] does not depend on the order in
    which the database returns the rooms. *)
Theorem check_same_event_row_order w rows room_ids :
  rows ≡ₚ microlocations w →
  check_same_event (with_microlocations rows w) room_ids = check_same_event w room_ids.
Proof.
  intros Hperm. rewrite !check_same_event_unfold.
  assert (Hsame : found_event_ids (with_microlocations rows w) room_ids
                  = found_event_ids w room_ids).
  { apply set_eq. intros x. rewrite !elem_of_found_event_ids. simpl.
    split; intros (r & Hr & Hrest); exists r; split; try done.
    - by rewrite <- Hperm.
    - by rewrite Hperm. }
  rewrite Hsame. case_decide; [done|].
  destruct (set_pop _); [|done]. simpl. apply check_event_access_with_microlocations.
Qed.

Lemma check_same_event_row_order_witness :
  check_same_event
    (with_microlocations [room 201 (Some 7) None; room 102 (Some 5) None;
                          room 101 (Some 5) None] w_outsider) [102; 101]
  = check_same_event w_outsider [102; 101].
Proof.
  apply (check_same_event_row_order w_outsider
           [room 201 (Some 7) None; room 102 (Some 5) None; room 101 (Some 5) None]
           [102; 101]).
  by_evaluation.
Defined.

(** X5: a collection that [check_same_event] accepts stays accepted when
    ids are taken away, as long as one of the remaining ids finds a room. *)
Theorem check_same_event_subcollection w room_ids fewer :
  check_same_event w room_ids = Ok tt →
  (∀ x, x ∈ fewer → x ∈ room_ids) →
  (∃ r, r ∈ microlocations w ∧ Microlocation.id r ∈ fewer) →
  check_same_event w fewer = Ok tt.
Proof.
  intros Hok Hsub Hex.
  destruct (check_same_event_outcomes w room_ids)
    as [[_ Hkey] | [[_ Hmixed] | (x & Hfound & Hone)]]; [congruence | congruence |].
  rewrite (check_same_event_single w fewer x); [congruence | done |].
  intros r Hr Hid.
  assert (Hin : Microlocation.event_id r ∈ found_event_ids w room_ids)
    by (apply elem_of_found_event_ids; eauto).
  rewrite Hfound in Hin. by apply elem_of_singleton in Hin.
Qed.

Lemma check_same_event_subcollection_witness :
  check_same_event w_two_events [102] = Ok tt.
Proof.
  apply (check_same_event_subcollection w_two_events [101; 102; 999] [102]).
  - by vm_compute.
  - each_by_evaluation.
  - exists (room 102 (Some 5) None). split; by_evaluation.
Defined.

(** X6: rooms that belong to no event pass [check_same_event] for every
    requester: their absent event id reaches [check_event_access], which
    asks for no capability. *)
Theorem check_same_event_rooms_without_event w room_ids :
  (∃ r, r ∈ microlocations w ∧ Microlocation.id r ∈ room_ids) →
  (∀ r, r ∈ microlocations w → Microlocation.id r ∈ room_ids →
     Microlocation.event_id r = None) →
  check_same_event w room_ids = Ok tt.
Proof.
  intros Hex Hall. by rewrite (check_same_event_single w room_ids None).
Qed.

Lemma check_same_event_rooms_without_event_witness :
  check_same_event w_detached [50] = Ok tt.
Proof.
  apply (check_same_event_rooms_without_event w_detached [50]).
  - exists (room 50 None None). split; by_evaluation.
  - each_by_evaluation.
Defined.

(** X7: a create request that passes the exclusivity check and lists only
    room ids that match no room ends in KeyError: the pre-create hook runs
    the guard on any non-empty list, and the guard then finds nothing. *)
Theorem before_post_unknown_rooms rer w data ids :
  rer ["rooms"; "event"] data false = Ok tt →
  Data.rooms data = Some ids → ids ≠ [] →
  (∀ x, x ∈ ids → x ∉ Microlocation.id <$> microlocations w) →
  before_post rer w data = Raise (KeyError "pop from an empty set").
Proof.
  intros Hrer Hrooms Hne Hnone. unfold before_post. rewrite Hrer, Hrooms. simpl.
  destruct ids as [|i ids]; [done|]. simpl.
  by rewrite (check_same_event_no_room_found w (i :: ids)).
Qed.

Lemma before_post_unknown_rooms_witness :
  before_post require_exclusive_relationship_spec w_two_events
    {| Data.rooms := Some [999]; Data.event := None |}
  = Raise (KeyError "pop from an empty set").
Proof.
  apply (before_post_unknown_rooms require_exclusive_relationship_spec w_two_events
           {| Data.rooms := Some [999]; Data.event := None |} [999]);
    [reflexivity | reflexivity | discriminate | each_by_evaluation].
Defined.

(** X8: in the pre-create hook the access check comes before the
    uniqueness check: a requester who is not coorganizer of the named
    event gets the access ForbiddenError whether or not the event already
    has a stream. *)
Theorem before_post_access_before_uniqueness rer w data e :
  rer ["rooms"; "event"] data false = Ok tt →
  truthy_list (Data.rooms data) = false →
  Data.event data = Some e → e ≠ 0 →
  has_access w "is_coorganizer" e = false →
  before_post rer w data =
    Raise (ForbiddenError "/data/relationships/rooms"
             "You don't have access to the provided event").
Proof.
  intros Hrer Hrooms Hevent He Hacc. unfold before_post.
  rewrite Hrer, Hrooms, Hevent. simpl.
  by rewrite check_event_access_truthy, Hacc.
Qed.

Lemma before_post_access_before_uniqueness_witness :
  before_post require_exclusive_relationship_spec w_outsider
    {| Data.rooms := None; Data.event := Some 5 |}
  = Raise (ForbiddenError "/data/relationships/rooms"
             "You don't have access to the provided event").
Proof.
  apply (before_post_access_before_uniqueness require_exclusive_relationship_spec
           w_outsider {| Data.rooms := None; Data.event := Some 5 |} 5);
    [reflexivity | reflexivity | reflexivity | lia | reflexivity].
Defined.

(** X9: a create request that names rooms and no event is decided by the
    rooms guard alone: once the exclusivity check has passed, the hook
    ends as [check_same_event] does on those rooms, and the uniqueness
    check is not applied, so no ConflictError is raised. *)
Theorem before_post_rooms_only rer w data ids :
  rer ["rooms"; "event"] data false = Ok tt →
  Data.rooms data = Some ids → ids ≠ [] →
  truthy (Data.event data) = false →
  before_post rer w data = check_same_event w ids ∧
  ¬ raises_conflict (before_post rer w data).
Proof.
  intros Hrer Hrooms Hne Hevent.
  assert (Heq : before_post rer w data = check_same_event w ids).
  { unfold before_post, check_event_access. rewrite Hrer, Hrooms, Hevent. simpl.
    destruct ids as [|i ids]; [done|]. simpl.
    by destruct (check_same_event w (i :: ids)) as [[]|]. }
  split; [done|]. rewrite Heq. apply check_same_event_no_conflict.
Qed.

Lemma before_post_rooms_only_witness :
  before_post require_exclusive_relationship_spec w_two_events
    {| Data.rooms := Some [101; 102]; Data.event := None |}
  = check_same_event w_two_events [101; 102] ∧
  ¬ raises_conflict
      (before_post require_exclusive_relationship_spec w_two_events
         {| Data.rooms := Some [101; 102]; Data.event := None |}).
Proof.
  apply (before_post_rooms_only require_exclusive_relationship_spec w_two_events
           {| Data.rooms := Some [101; 102]; Data.event := None |} [101; 102]);
    [reflexivity | reflexivity | discriminate | reflexivity].
Defined.

(** X10: an update that proposes a room of another event than a room the
    stream already has is refused with the single-event ForbiddenError,
    once the exclusivity and the two access checks have passed. *)
Theorem before_update_object_mixed_rooms rer w obj data ids r1 r2 :
  rer ["rooms"; "event"] data true = Ok tt →
  check_event_access w (VideoStream.event_id obj) = Ok tt →
  check_event_access w (Data.event data) = Ok tt →
  Data.rooms data = Some ids →
  r1 ∈ rooms_of w obj →
  r2 ∈ microlocations w → Microlocation.id r2 ∈ ids →
  Microlocation.event_id r1 ≠ Microlocation.event_id r2 →
  before_update_object rer w obj data = Raise rooms_error.
Proof.
  intros Hrer Hcur Hnew Hrooms Hr1 Hr2 Hid2 Hne. unfold before_update_object.
  rewrite Hrer, Hcur, Hnew, Hrooms. simpl.
  assert (Hin1 : Microlocation.id r1 ∈ (ids ++ (Microlocation.id <$> rooms_of w obj))%list)
    by (apply elem_of_app; right; by apply list_elem_of_fmap_2).
  assert (Hin2 : Microlocation.id r2 ∈ (ids ++ (Microlocation.id <$> rooms_of w obj))%list)
    by (apply elem_of_app; by left).
  destruct (ids ++ (Microlocation.id <$> rooms_of w obj))%list as [|i l] eqn:Hl.
  { by apply not_elem_of_nil in Hin1. }
  rewrite check_same_event_unfold. rewrite decide_True; [done|].
  apply elem_of_rooms_of in Hr1 as [Hr1 _].
  apply (two_elements_size _ (Microlocation.event_id r1) (Microlocation.event_id r2));
    [| |done]; apply elem_of_found_event_ids; eauto.
Qed.

Lemma before_update_object_mixed_rooms_witness :
  before_update_object require_exclusive_relationship_spec w_event9
    (stream 4 (Some 9) true) {| Data.rooms := Some [33]; Data.event := None |}
  = Raise rooms_error.
Proof.
  apply (before_update_object_mixed_rooms require_exclusive_relationship_spec w_event9
           (stream 4 (Some 9) true) {| Data.rooms := Some [33]; Data.event := None |}
           [33] (room 31 (Some 9) (Some 4)) (room 33 (Some 8) None));
    [reflexivity | reflexivity | reflexivity | reflexivity
    | by_evaluation | by_evaluation | by_evaluation | discriminate].
Defined.

(** X11: a requester who is not coorganizer of the stream's current event
    (with a non-zero id) can neither update nor delete the stream: both
    hooks end in the access ForbiddenError, the update hook for every
    payload that passes the exclusivity check. *)
Theorem current_event_access_required rer w obj data E :
  rer ["rooms"; "event"] data true = Ok tt →
  VideoStream.event_id obj = Some E → E ≠ 0 →
  has_access w "is_coorganizer" E = false →
  before_update_object rer w obj data =
    Raise (ForbiddenError "/data/relationships/rooms"
             "You don't have access to the provided event") ∧
  before_delete_object w obj =
    Raise (ForbiddenError "/data/relationships/rooms"
             "You don't have access to the provided event").
Proof.
  intros Hrer Hev HE Hacc. unfold before_update_object, before_delete_object.
  rewrite Hrer, Hev, check_event_access_truthy, Hacc by done. done.
Qed.

Lemma current_event_access_required_witness :
  before_update_object require_exclusive_relationship_spec w_event9
    (stream 6 (Some 8) false) {| Data.rooms := None; Data.event := Some 9 |}
  = Raise (ForbiddenError "/data/relationships/rooms"
             "You don't have access to the provided event") ∧
  before_delete_object w_event9 (stream 6 (Some 8) false)
  = Raise (ForbiddenError "/data/relationships/rooms"
             "You don't have access to the provided event").
Proof.
  apply (current_event_access_required require_exclusive_relationship_spec w_event9
           (stream 6 (Some 8) false) {| Data.rooms := None; Data.event := Some 9 |} 8);
    [reflexivity | reflexivity | lia | reflexivity].
Defined.

Lemma rooms_of_found w obj r :
  r ∈ rooms_of w obj →
  Microlocation.event_id r ∈ found_event_ids w (Microlocation.id <$> rooms_of w obj).
Proof.
  intros Hr. apply elem_of_found_event_ids. exists r.
  split; [by apply elem_of_rooms_of in Hr as [? _]|].
  split; [by apply list_elem_of_fmap_2 | done].
Qed.

(** X12: the pre-delete hook either returns or raises ForbiddenError; the
    KeyError of the rooms guard cannot happen there, because the ids it
    passes are those of rooms that exist. *)
Theorem before_delete_object_outcomes w obj :
  before_delete_object w obj = Ok tt ∨ raises_forbidden (before_delete_object w obj).
Proof.
  unfold before_delete_object.
  destruct (check_event_access_outcomes w (VideoStream.event_id obj)) as [-> | ->];
    simpl; [|by right].
  destruct (rooms_of w obj) as [|r0 rest] eqn:Hobj; [by left|].
  change (check_same_event w (Microlocation.id <$> r0 :: rest) = Ok tt ∨
          raises_forbidden (check_same_event w (Microlocation.id <$> r0 :: rest))).
  rewrite <- Hobj.
  assert (Hr0 : r0 ∈ rooms_of w obj) by (rewrite Hobj; left).
  apply rooms_of_found in Hr0.
  destruct (check_same_event_outcomes w (Microlocation.id <$> rooms_of w obj))
    as [[Hempty _] | [[_ ->] | (x & _ & ->)]].
  - rewrite Hempty in Hr0. by apply not_elem_of_empty in Hr0.
  - by right.
  - destruct (check_event_access_outcomes w x) as [-> | ->]; [by left | by right].
Qed.

(** X13: with room ids a primary key, the pre-delete hook returns exactly
    when the access check on the stream's event returns and the stream
    either has no rooms or has rooms that share one event id on which the
    access check returns as well. *)
Theorem before_delete_object_returns_iff w obj :
  NoDup (Microlocation.id <$> microlocations w) →
  before_delete_object w obj = Ok tt ↔
  check_event_access w (VideoStream.event_id obj) = Ok tt ∧
  (rooms_of w obj = [] ∨
   ∃ x, (∀ r, r ∈ rooms_of w obj → Microlocation.event_id r = x) ∧
        check_event_access w x = Ok tt).
Proof.
  intros Hkey. unfold before_delete_object.
  destruct (check_event_access w (VideoStream.event_id obj)) as [[]|err]; simpl;
    [|naive_solver].
  destruct (rooms_of w obj) as [|r0 rest] eqn:Hobj; [naive_solver|].
  change (check_same_event w (Microlocation.id <$> r0 :: rest) = Ok tt ↔
          Ok tt = Ok tt ∧
          (r0 :: rest = [] ∨
           ∃ x, (∀ r, r ∈ r0 :: rest → Microlocation.event_id r = x) ∧
                check_event_access w x = Ok tt)).
  rewrite <- Hobj.
  assert (Hr0 : r0 ∈ rooms_of w obj) by (rewrite Hobj; left).
  split.
  - intros Hok. split; [done|]. right.
    destruct (check_same_event_outcomes w (Microlocation.id <$> rooms_of w obj))
      as [[_ Hkeyerr] | [[_ Hmixed] | (x & Hfound & Hone)]]; [congruence | congruence |].
    exists x. split; [|congruence].
    intros r Hr%rooms_of_found. rewrite Hfound in Hr. by apply elem_of_singleton in Hr.
  - intros [_ [Hnil | (x & Hall & Hacc)]]; [by rewrite Hobj in Hnil|].
    rewrite (check_same_event_single w _ x); [done | |].
    + exists r0. split; [by apply elem_of_rooms_of in Hr0 as [? _]|].
      by apply list_elem_of_fmap_2.
    + intros r Hr (r' & Hid & Hr')%list_elem_of_fmap.
      assert (r = r') as ->; [|by apply Hall].
      apply (NoDup_fmap_eq Microlocation.id (microlocations w)); try done.
      by apply elem_of_rooms_of in Hr' as [? _].
Qed.

Lemma before_delete_object_returns_iff_witness :
  before_delete_object w_event9 (stream 6 None false) = Ok tt ↔
  check_event_access w_event9 None = Ok tt ∧
  (rooms_of w_event9 (stream 6 None false) = [] ∨
   ∃ x, (∀ r, r ∈ rooms_of w_event9 (stream 6 None false) → Microlocation.event_id r = x) ∧
        check_event_access w_event9 x = Ok tt).
Proof.
  apply (before_delete_object_returns_iff w_event9 (stream 6 None false)).
  by_evaluation.
Defined.

(** X14: the pre-fetch hook leaves [room_id] and [event_identifier] as
    they were, touches [event_id] only when an event identifier is given,
    and returns the view arguments unchanged when none of the three keys
    holds a value that Python takes for true (a room id or event id of 0
    included). *)
Theorem before_get_object_frame w kw kw' :
  before_get_object w kw = Ok kw' →
  ViewKwargs.room_id kw' = ViewKwargs.room_id kw ∧
  ViewKwargs.event_identifier kw' = ViewKwargs.event_identifier kw ∧
  (truthy_str (ViewKwargs.event_identifier kw) = false →
   ViewKwargs.event_id kw' = ViewKwargs.event_id kw) ∧
  (truthy (ViewKwargs.room_id kw) = false →
   truthy_str (ViewKwargs.event_identifier kw) = false →
   truthy (ViewKwargs.event_id kw) = false → kw' = kw).
Proof.
  unfold before_get_object. destruct kw as [room_id identifier event_id target].
  cbn [ViewKwargs.room_id ViewKwargs.event_identifier ViewKwargs.event_id ViewKwargs.id].
  destruct (truthy room_id) eqn:Hroom.
  - destruct (safe_query_kwargs (microlocations w) _ "room_id") as [r|]; [|done].
    cbn -[truthy truthy_str].
    destruct (truthy_str identifier) eqn:Hident.
    + destruct (safe_query_kwargs (events w) _ "event_identifier") as [ev|]; [|done].
      cbn -[truthy truthy_str].
      destruct (truthy (Some (Event.id ev))).
      * destruct (safe_query_kwargs (video_streams w) _ "event_id") as [vs|]; [|done].
        cbn. intros [= <-]. cbn. done.
      * intros [= <-]. cbn. done.
    + cbn -[truthy truthy_str]. destruct (truthy event_id).
      * destruct (safe_query_kwargs (video_streams w) _ "event_id") as [vs|]; [|done].
        cbn. intros [= <-]. cbn. done.
      * intros [= <-]. cbn. done.
  - cbn -[truthy truthy_str].
    destruct (truthy_str identifier) eqn:Hident.
    + destruct (safe_query_kwargs (events w) _ "event_identifier") as [ev|]; [|done].
      cbn -[truthy truthy_str].
      destruct (truthy (Some (Event.id ev))).
      * destruct (safe_query_kwargs (video_streams w) _ "event_id") as [vs|]; [|done].
        cbn. intros [= <-]. cbn. done.
      * intros [= <-]. cbn. done.
    + cbn -[truthy truthy_str]. destruct (truthy event_id) eqn:Hev.
      * destruct (safe_query_kwargs (video_streams w) _ "event_id") as [vs|]; [|done].
        cbn. intros [= <-]. cbn. done.
      * intros [= <-]. cbn. done.
Qed.

Lemma before_get_object_frame_witness :
  ViewKwargs.room_id
    {| ViewKwargs.room_id := Some 0; ViewKwargs.event_identifier := None;
       ViewKwargs.event_id := None; ViewKwargs.id := Some 4 |} = Some 0 ∧
  ViewKwargs.event_identifier
    {| ViewKwargs.room_id := Some 0; ViewKwargs.event_identifier := None;
       ViewKwargs.event_id := None; ViewKwargs.id := Some 4 |} = None ∧
  (truthy_str None = false →
   ViewKwargs.event_id
     {| ViewKwargs.room_id := Some 0; ViewKwargs.event_identifier := None;
        ViewKwargs.event_id := None; ViewKwargs.id := Some 4 |} = None) ∧
  (truthy (Some 0) = false → truthy_str None = false → truthy None = false →
   {| ViewKwargs.room_id := Some 0; ViewKwargs.event_identifier := None;
      ViewKwargs.event_id := None; ViewKwargs.id := Some 4 |}
   = {| ViewKwargs.room_id := Some 0; ViewKwargs.event_identifier := None;
        ViewKwargs.event_id := None; ViewKwargs.id := Some 4 |}).
Proof.
  apply (before_get_object_frame w_event9
           {| ViewKwargs.room_id := Some 0; ViewKwargs.event_identifier := None;
              ViewKwargs.event_id := None; ViewKwargs.id := Some 4 |}
           {| ViewKwargs.room_id := Some 0; ViewKwargs.event_identifier := None;
              ViewKwargs.event_id := None; ViewKwargs.id := Some 4 |}).
  reflexivity.
Defined.





(** X16: in an update of a stream that has rooms, proposed room ids that
    match no room are passed over without an error: once the exclusivity
    and access checks have passed, the hook ends as the rooms guard does
    on the rooms the stream already has. *)
Theorem before_update_object_unknown_rooms rer w obj data ids :
  rer ["rooms"; "event"] data true = Ok tt →
  check_event_access w (VideoStream.event_id obj) = Ok tt →
  check_event_access w (Data.event data) = Ok tt →
  Data.rooms data = Some ids →
  (∀ x, x ∈ ids → x ∉ Microlocation.id <$> microlocations w) →
  rooms_of w obj ≠ [] →
  before_update_object rer w obj data
  = check_same_event w (Microlocation.id <$> rooms_of w obj).
Proof.
  intros Hrer Hcur Hnew Hrooms Hunknown Hsome. unfold before_update_object.
  rewrite Hrer, Hcur, Hnew, Hrooms. simpl.
  destruct (ids ++ (Microlocation.id <$> rooms_of w obj))%list as [|i l] eqn:Hl.
  { apply app_eq_nil in Hl as [_ Hl]. by apply fmap_nil_inv in Hl. }
  rewrite <- Hl. apply check_same_event_ext. intros r Hr.
  rewrite elem_of_app. split; [|by right].
  intros [Hin | Hin]; [|done].
  destruct (Hunknown _ Hin). by apply list_elem_of_fmap_2.
Qed.

Lemma before_update_object_unknown_rooms_witness :
  before_update_object require_exclusive_relationship_spec w_event9
    (stream 4 (Some 9) true) {| Data.rooms := Some [999]; Data.event := None |}
  = check_same_event w_event9 (Microlocation.id <$> rooms_of w_event9 (stream 4 (Some 9) true)).
Proof.
  apply (before_update_object_unknown_rooms require_exclusive_relationship_spec w_event9
           (stream 4 (Some 9) true) {| Data.rooms := Some [999]; Data.event := None |}
           [999]);
    [reflexivity | reflexivity | reflexivity | reflexivity | each_by_evaluation
    | discriminate].
Defined.
